(** * pymaker [api/transact.py]: the [TxManager] client and its invocation script

    A shallow embedding of [Invocation], [TxManager.owner] and
    [TxManager.execute], together with the byte-level encoding performed by
    the closures [token_addresses], [script] and [script_entry].

    Conventions.
    - Python [bytes] are lists of [byte]; [len] is [length]; [+] on bytes is
      list append.
    - A Python computation either returns a value or raises: [outcome].
    - Code that talks to the chain threads a [state] (the client object, the
      outside world, and a log of the remote calls made so far); a raised
      exception keeps the state reached so far, as in Python.
    - The interpreter runs in its default mode, so [assert] statements are
      executed. *)

From Stdlib Require Import ZArith Lia.
From Stdlib Require Import Init.Byte Strings.Byte.
From stdpp Require Import base option list strings gmap.

Local Open Scope Z_scope.

(** ** Python values shared by every definition below *)

Definition bytes := list byte.

(** The exceptions the modelled code can meet.  [RemoteError] stands for
    whatever an external collaborator raises, tagged by its message. *)
Inductive exception :=
  | AssertionError
  | AttributeError
  | OverflowError
  | RemoteError (message : string).

Inductive outcome (A : Type) :=
  | Returned (value : A)
  | Raised (e : exception).
Arguments Returned {A} value.
Arguments Raised {A} e.

Definition outcome_bind {A B} (f : A -> outcome B) (m : outcome A) : outcome B :=
  match m with
  | Returned a => f a
  | Raised e => Raised e
  end.

#[global] Instance outcome_ret : MRet outcome := fun A a => Returned a.
#[global] Instance outcome_mbind : MBind outcome := fun A B f m => outcome_bind f m.

(** ** [int.to_bytes] and [int.from_bytes] *)

Definition byte_of_Z (z : Z) : byte :=
  default x00 (Byte.of_N (Z.to_N (z mod 256))).

Definition Z_of_byte (b : byte) : Z := Z.of_N (Byte.to_N b).

(** Base-256 digits of [n], least significant first, exactly [length] of them. *)
Fixpoint little_endian_digits (length : nat) (n : Z) : bytes :=
  match length with
  | O => []
  | S k => byte_of_Z n :: little_endian_digits k (n / 256)
  end.

(** [n.to_bytes(length, byteorder='big')] with the default [signed=False]:
    [OverflowError] for a negative [n] and for an [n] that does not fit. *)
Definition int_to_bytes (n : Z) (length : nat) : outcome bytes :=
  if decide (n < 0) then Raised OverflowError
  else if decide (256 ^ Z.of_nat length <= n) then Raised OverflowError
  else Returned (rev (little_endian_digits length n)).

(** [int.from_bytes(b, byteorder='big')]. *)
Definition int_from_bytes (b : bytes) : Z :=
  fold_left (fun acc x => acc * 256 + Z_of_byte x) b 0.

(** The value of a digit list read least significant digit first. *)
Definition little_endian_value (l : bytes) : Z :=
  fold_right (fun x acc => acc * 256 + Z_of_byte x) 0 l.

(** [len(b)] as a Python int. *)
Definition len {A} (b : list A) : Z := Z.of_nat (length b).

(** ** The [api] package

    [transact.py] imports [Address], [Calldata], [Receipt] and [Contract] from
    the package [api], whose source is not part of [transact.py].  What the
    modelled code uses of them is collected in an interface. *)

Class Api := {
  (** instances of [api.Address] *)
  Address : Type;
  (** instances of [api.Calldata] *)
  Calldata : Type;
  (** instances of [api.Receipt] *)
  Receipt : Type;
  (** what the attribute [address] of an [Address] holds, and what the
      contract's [owner()] call yields *)
  AddressValue : Type;
  (** the attribute [address.address] *)
  Address_address : Address -> AddressValue;
  (** [address.as_bytes()] *)
  Address_as_bytes : Address -> bytes;
  (** [calldata.as_bytes()] *)
  Calldata_as_bytes : Calldata -> bytes;
  (** the constructor call [Address(value)] *)
  Address_new : AddressValue -> outcome Address;
}.

(** ** [class Invocation] *)

Section Client.
Context {api : Api}.

Record Invocation := {
  address : Address;
  calldata : Calldata;
}.

(** *** Construction, lines 34-38

    The arguments of a constructor call are arbitrary Python objects; the two
    [isinstance] assertions are what makes the attributes of a finished
    [Invocation] an [Address] and a [Calldata]. *)

Inductive pyvalue :=
  | PyNone
  | PyInt (n : Z)
  | PyStr (s : string)
  | PyBytes (b : bytes)
  | PyAddress (a : Address)
  | PyCalldata (c : Calldata).

Inductive pyclass := class_Address | class_Calldata.

Definition isinstance (v : pyvalue) (c : pyclass) : bool :=
  match v, c with
  | PyAddress _, class_Address => true
  | PyCalldata _, class_Calldata => true
  | _, _ => false
  end.

(** [Invocation.__init__(self, address, calldata)] acting on the attribute
    dictionary of [self]. *)
Definition Invocation__init__ (self : gmap string pyvalue)
    (address calldata : pyvalue) : outcome unit * gmap string pyvalue :=
  if negb (isinstance address class_Address) then (Raised AssertionError, self)
  else if negb (isinstance calldata class_Calldata) then (Raised AssertionError, self)
  else
    let self := <["address" := address]> self in
    let self := <["calldata" := calldata]> self in
    (Returned (), self).

(** The expression [Invocation(address, calldata)]: a fresh object with no
    attributes is initialised; the caller gets it only if [__init__] returns. *)
Definition Invocation_new (address calldata : pyvalue)
    : outcome (gmap string pyvalue) :=
  match Invocation__init__ ∅ address calldata with
  | (Returned _, self) => Returned self
  | (Raised e, _) => Raised e
  end.

(** The record read off the attributes of an instance. *)
Definition Invocation_of_instance (self : gmap string pyvalue)
    : option Invocation :=
  match self !! "address", self !! "calldata" with
  | Some (PyAddress a), Some (PyCalldata c) =>
      Some {| address := a; calldata := c |}
  | _, _ => None
  end.

(** *** The encoding closures of [execute] *)

(** [script_entry(invocation)], lines 83-86. *)
Definition script_entry (invocation : Invocation) : outcome bytes :=
  let body := Address_as_bytes (address invocation)
              ++ Calldata_as_bytes (calldata invocation) in
  header ← int_to_bytes (len body) 32;
  mret (header ++ body).

(** [operator.add] on two [bytes] objects. *)
Definition operator_add (a b : bytes) : bytes := a ++ b.

(** [functools.reduce(function, iterable, initializer)] over an iterator
    whose items are computed when the fold reaches them: the first item
    that raises ends the fold. *)
Fixpoint reduce {A B} (function : A -> B -> A) (iterable : list (outcome B))
    (initializer : A) : outcome A :=
  match iterable with
  | [] => Returned initializer
  | item :: rest => x ← item; reduce function rest (function initializer x)
  end.

(** [script()], lines 80-81. *)
Definition script (invocations : list Invocation) : outcome bytes :=
  reduce operator_add (map script_entry invocations) [].

(** [token_addresses()], lines 77-78. *)
Definition token_addresses (tokens : list Address) : list AddressValue :=
  map (fun address => Address_address address) tokens.

(** ** The collaborators of [TxManager]

    [web3] and the methods [TxManager] inherits from [api.Contract] are not
    part of [transact.py].  They act on the outside world (the node and the
    chain), may raise anything, and are given the arguments the source gives
    them. *)

Class Collaborators := {
  (** state of everything outside the client *)
  World : Type;
  (** the [web3] connection handle *)
  Web3 : Type;
  (** the object [web3.eth.contract(abi=abi)(address=...)] *)
  ContractProxy : Type;
  (** transaction hashes *)
  TxHash : Type;
  (** [web3.eth.contract(abi=self.abi)(address=...)], the ABI being fixed *)
  eth_contract : Web3 -> AddressValue -> ContractProxy;
  (** [contract.call().owner()] *)
  call_owner : ContractProxy -> World -> outcome AddressValue * World;
  (** [contract.transact().execute(tokens, script)] *)
  transact_execute :
    ContractProxy -> list AddressValue -> bytes -> World -> outcome TxHash * World;
  (** [Contract._assert_contract_exists(web3, address)] *)
  _assert_contract_exists : Web3 -> Address -> World -> outcome unit * World;
  (** [Contract._prepare_receipt(web3, tx_hash)].  Its code is not in
      [transact.py]; it is given the interface the specification gives the
      receipt resolver, [resolve(transaction_hash)]: it acts on the world,
      not on the client, and yields a receipt, or nothing, as the return
      annotation [Optional[Receipt]] of [execute] allows *)
  _prepare_receipt : Web3 -> TxHash -> World -> outcome (option Receipt) * World;
}.

Context {collaborators : Collaborators}.

(** ** [class TxManager] *)

Record TxManager := {
  web3 : Web3;
  TxManager_address : Address;
  _contract : ContractProxy;
}.

(** The calls that leave the client, in the order they are made. *)
Inductive remote_call :=
  | CallOwner (contract : ContractProxy)
  | TransactExecute (contract : ContractProxy)
      (tokens : list AddressValue) (script : bytes)
  | PrepareReceipt (w3 : Web3) (tx_hash : TxHash).

Record state := {
  self : TxManager;
  world : World;
  calls : list remote_call;
}.

(** A method body: it runs from a state, returns or raises, and leaves a
    state. *)
Definition M (A : Type) : Type := state -> outcome A * state.

Definition M_ret {A} (a : A) : M A := fun s => (Returned a, s).

Definition M_bind {A B} (f : A -> M B) (m : M A) : M B :=
  fun s =>
    match m s with
    | (Returned a, s') => f a s'
    | (Raised e, s') => (Raised e, s')
    end.

#[global] Instance M_mret : MRet M := fun A a => M_ret a.
#[global] Instance M_mbind : MBind M := fun A B f m => M_bind f m.

(** A pure computation inside a method. *)
Definition lift {A} (o : outcome A) : M A := fun s => (o, s).

(** [assert(condition)]. *)
Definition assert_ (condition : bool) : M unit :=
  lift (if condition then Returned () else Raised AssertionError).

(** [try: body / except: handler] with a bare [except], which catches every
    exception. *)
Definition try_except {A} (body : M A) (handler : M A) : M A :=
  fun s =>
    match body s with
    | (Returned a, s') => (Returned a, s')
    | (Raised _, s') => handler s'
    end.

(** Reading [self]. *)
Definition get_self : M TxManager := fun s => (Returned (self s), s).

(** A call that leaves the client: it is logged and acts on the world. *)
Definition remote {A} (call : remote_call)
    (action : World -> outcome A * World) : M A :=
  fun s =>
    let '(r, w) := action (world s) in
    (r, {| self := self s; world := w; calls := calls s ++ [call] |}).

(** [TxManager.__init__(self, web3, address)], lines 61-65.  When the
    existence check raises, the object is dropped together with the two
    attributes already assigned to it. *)
Definition TxManager__init__ (w3 : Web3) (address : Address) (w : World)
    : outcome TxManager * World :=
  match _assert_contract_exists w3 address w with
  | (Returned _, w') =>
      (Returned {| web3 := w3;
                   TxManager_address := address;
                   _contract := eth_contract w3 (Address_address address) |}, w')
  | (Raised e, w') => (Raised e, w')
  end.

(** [TxManager.owner(self)], lines 67-68. *)
Definition owner : M Address :=
  this ← get_self;
  value ← remote (CallOwner (_contract this)) (call_owner (_contract this));
  lift (Address_new value).

(** An argument annotated [List[...]]: a Python list, or some other object. *)
Inductive argument (A : Type) :=
  | PyList (items : list A)
  | NotAList (v : pyvalue).
Arguments PyList {A} items.
Arguments NotAList {A} v.

(** [isinstance(a, list)]. *)
Definition isinstance_list {A} (a : argument A) : bool :=
  match a with PyList _ => true | NotAList _ => false end.

(** Iterating over an argument: the items of a list; the other objects of
    [pyvalue] have nothing the closures could use. *)
Definition items_of {A} (a : argument A) : outcome (list A) :=
  match a with
  | PyList items => Returned items
  | NotAList _ => Raised AttributeError
  end.

(** [TxManager.execute(self, tokens, invocations)], lines 70-94.  The
    receiver [self._contract.transact()] and the two arguments are evaluated
    inside the [try], before the remote call is made. *)
Definition execute (tokens : argument Address)
    (invocations : argument Invocation) : M (option Receipt) :=
  assert_ (isinstance_list tokens);;
  assert_ (isinstance_list invocations);;
  try_except
    (this ← get_self;
     token_list ← lift (items_of tokens);
     invocation_list ← lift (items_of invocations);
     let addresses := token_addresses token_list in
     code ← lift (script invocation_list);
     tx_hash ← remote (TransactExecute (_contract this) addresses code)
                 (transact_execute (_contract this) addresses code);
     this ← get_self;
     remote (PrepareReceipt (web3 this) tx_hash)
       (_prepare_receipt (web3 this) tx_hash))
    (mret None).

(** A method body that never assigns to the client's fields. *)
Definition preserves_self {A} (m : M A) : Prop :=
  forall s, self (snd (m s)) = self s.

(** The same state with another log of remote calls. *)
Definition with_calls (s : state) (log : list remote_call) : state :=
  {| self := self s; world := world s; calls := log |}.

End Client.

Arguments PyList {api A} items.
Arguments NotAList {api A} v.

Section Rebinding.
Context {api : Api} {collaborators : Collaborators}.

(** The same state after the assignment [self.address = a]. *)
Definition with_address (s : state) (a : Address) : state :=
  {| self := {| web3 := web3 (self s);
                TxManager_address := a;
                _contract := _contract (self s) |};
     world := world s;
     calls := calls s |}.

End Rebinding.

(** ** The wire format as the specification words it

    Definitions in this part follow the prose of the specification, not the
    source; the theorems compare them with the definitions above. *)

(** [big_endian_uint256(n)]: 32 bytes, the byte at position [j] (from the
    left) being the base-256 digit of weight [256^(31-j)]. *)
Definition big_endian_uint256 (n : Z) : bytes :=
  map (fun j => byte_of_Z (n / 256 ^ Z.of_nat (31 - j))) (seq 0 32).

Section WireFormat.
Context {api : Api}.

(** [body = raw_bytes(i.address) ++ raw_bytes(i.calldata)]. *)
Definition body_of (i : Invocation) : bytes :=
  Address_as_bytes (address i) ++ Calldata_as_bytes (calldata i).

(** The entry for invocation [i]: [header ++ body], the header being
    [big_endian_uint256(len(body))]. *)
Definition record_of (i : Invocation) : bytes :=
  big_endian_uint256 (len (body_of i)) ++ body_of i.

(** The [(address, calldata)] pair of an invocation, as bytes. *)
Definition fields_of (i : Invocation) : bytes * bytes :=
  (Address_as_bytes (address i), Calldata_as_bytes (calldata i)).

End WireFormat.

(** Modelled from the spec: the parser of the script, which the
    specification attributes to the on-chain contract and for which the
    repository has no code.  It repeatedly reads a 32-byte big-endian length,
    then that many body bytes, and splits the body into a 20-byte address and
    the remaining bytes as calldata.  [fuel] bounds the number of records. *)
Fixpoint decode_records (fuel : nat) (code : bytes) : option (list (bytes * bytes)) :=
  match code with
  | [] => Some []
  | _ :: _ =>
      match fuel with
      | O => None
      | S fuel' =>
          if decide (length code < 32)%nat then None
          else
            let n := Z.to_nat (int_from_bytes (take 32 code)) in
            let rest := drop 32 code in
            if decide (length rest < n)%nat then None
            else if decide (n < 20)%nat then None
            else
              let body := take n rest in
              records ← decode_records fuel' (drop n rest);
              Some ((take 20 body, drop 20 body) :: records)
      end
  end.

(** Every record takes at least 32 bytes, so the length of the script is
    fuel enough. *)
Definition decode_script (code : bytes) : option (list (bytes * bytes)) :=
  decode_records (length code) code.

(** ** A concrete environment

    Addresses and calldata are their own bytes.  The node counts the
    transactions it has mined; it refuses every call while it is not
    [online] and cannot resolve receipts while it is not [indexing].  The
    theorems below are run on it. *)

Definition bytes_api : Api := {|
  Address := bytes;
  Calldata := bytes;
  Receipt := nat;
  AddressValue := bytes;
  Address_address := fun a => a;
  Address_as_bytes := fun a => a;
  Calldata_as_bytes := fun c => c;
  Address_new := fun v =>
    if decide (length v = 20%nat) then Returned v
    else Raised (RemoteError "invalid address"%string);
|}.

Record node := {
  online : bool;
  indexing : bool;
  mined : nat;
}.

Definition node_owner : bytes := replicate 19 x00 ++ [x01].

Definition counter_node : @Collaborators bytes_api :=
  @Build_Collaborators bytes_api
    node unit bytes nat
    (fun _ (a : bytes) => a)
    (fun _ w =>
       if online w then (Returned node_owner, w)
       else (Raised (RemoteError "connection refused"%string), w))
    (fun _ _ _ w =>
       if online w
       then (Returned (mined w),
             {| online := true; indexing := indexing w; mined := S (mined w) |})
       else (Raised (RemoteError "connection refused"%string), w))
    (fun _ _ w => (Returned (), w))
    (fun _ h w =>
       if indexing w then (Returned (Some h), w)
       else (Raised (RemoteError "receipt unavailable"%string), w)).

Definition zero_address : bytes := replicate 20 x00.

Definition invocation_of (a c : bytes) : @Invocation bytes_api :=
  {| address := a : @Address bytes_api; calldata := c : @Calldata bytes_api |}.

Definition client_state (up index : bool) : @state bytes_api counter_node :=
  {| self := {| web3 := () : @Web3 _ counter_node;
                TxManager_address := zero_address : @Address bytes_api;
                _contract := zero_address : @ContractProxy _ counter_node |};
     world := {| online := up; indexing := index; mined := 0 |}
              : @World _ counter_node;
     calls := [] |}.

Definition two_invocations : list (@Invocation bytes_api) :=
  [invocation_of zero_address [x01; x02; x03];
   invocation_of node_owner []].

Definition one_token : list (@Address bytes_api) := [zero_address].

Definition two_tokens : list (@Address bytes_api) := [node_owner; zero_address].

(** The bodies of [two_invocations], the second one cut after 19 bytes. *)
Definition other_invocations : list (@Invocation bytes_api) :=
  [invocation_of zero_address [x01; x02; x03];
   invocation_of (replicate 19 x00) [x01]].

Definition fresh_node : node :=
  {| online := true; indexing := true; mined := 0 |}.

(** * Proofs *)

(** ** Integers and bytes *)

Lemma Z_of_byte_range b : 0 <= Z_of_byte b < 256.
Proof.
  unfold Z_of_byte. pose proof (Byte.to_N_bounded b). lia.
Qed.

Lemma Z_of_byte_of_Z z : Z_of_byte (byte_of_Z z) = z mod 256.
Proof.
  unfold Z_of_byte, byte_of_Z.
  assert (Hr : 0 <= z mod 256 < 256) by (apply Z.mod_pos_bound; lia).
  destruct (Byte.of_N (Z.to_N (z mod 256))) as [b|] eqn:E; simpl.
  - apply Byte.to_of_N in E. rewrite E. lia.
  - apply Byte.of_N_None_iff in E. lia.
Qed.

Lemma length_little_endian_digits k n : length (little_endian_digits k n) = k.
Proof. revert n. induction k as [|k IH]; intros n; simpl; [done|]. by rewrite IH. Qed.

Lemma int_from_bytes_rev l : int_from_bytes (rev l) = little_endian_value l.
Proof.
  unfold int_from_bytes, little_endian_value.
  rewrite <- fold_left_rev_right, rev_involutive. reflexivity.
Qed.

Lemma little_endian_value_digits k n :
  little_endian_value (little_endian_digits k n) = n mod 256 ^ Z.of_nat k.
Proof.
  revert n. induction k as [|k IH]; intros n.
  - simpl. by rewrite Z.mod_1_r.
  - cbn [little_endian_digits little_endian_value fold_right].
    fold (little_endian_value (little_endian_digits k (n / 256))).
    rewrite IH, Z_of_byte_of_Z, Nat2Z.inj_succ, Z.pow_succ_r by lia.
    rewrite (Z.rem_mul_r n 256 (256 ^ Z.of_nat k)) by lia. lia.
Qed.

Lemma rev_map_seq {A} (f : nat -> A) k :
  rev (map f (seq 0 k)) = map (fun j => f (k - 1 - j)%nat) (seq 0 k).
Proof.
  induction k as [|k IH]; [done|].
  rewrite seq_S at 1. rewrite map_app, rev_app_distr. simpl rev. simpl app.
  rewrite IH. cbn [seq map]. f_equal.
  - f_equal. lia.
  - rewrite <- seq_shift, map_map. apply map_ext_in. intros j Hj.
    apply in_seq in Hj. f_equal. lia.
Qed.

Lemma little_endian_digits_positional k n :
  0 <= n ->
  little_endian_digits k n = map (fun i => byte_of_Z (n / 256 ^ Z.of_nat i)) (seq 0 k).
Proof.
  revert n. induction k as [|k IH]; intros n Hn; [done|].
  cbn [little_endian_digits seq map]. f_equal.
  - by rewrite Z.div_1_r.
  - rewrite IH by (apply Z.div_pos; lia).
    rewrite <- seq_shift, map_map. apply map_ext. intros i.
    rewrite Nat2Z.inj_succ, Z.pow_succ_r by lia.
    rewrite Z.div_div by lia. reflexivity.
Qed.

Lemma pow_256_32 : 256 ^ Z.of_nat 32 = 2 ^ 256.
Proof. reflexivity. Qed.

Lemma int_to_bytes_in_range n k :
  0 <= n < 256 ^ Z.of_nat k ->
  int_to_bytes n k = Returned (rev (little_endian_digits k n)).
Proof.
  intros [Hlo Hhi]. unfold int_to_bytes.
  destruct (decide (n < 0)); [lia|].
  destruct (decide (256 ^ Z.of_nat k <= n)); [lia|]. reflexivity.
Qed.

Lemma int_to_bytes_overflow n k :
  256 ^ Z.of_nat k <= n -> int_to_bytes n k = Raised OverflowError.
Proof.
  intros Hn. unfold int_to_bytes.
  destruct (decide (n < 0)); [done|].
  destruct (decide (256 ^ Z.of_nat k <= n)); [done|lia].
Qed.

Lemma to_bytes_is_big_endian_uint256 n :
  0 <= n -> rev (little_endian_digits 32 n) = big_endian_uint256 n.
Proof.
  intros Hn. rewrite little_endian_digits_positional by done.
  rewrite rev_map_seq. reflexivity.
Qed.

Lemma int_to_bytes_uint256 n :
  0 <= n < 2 ^ 256 -> int_to_bytes n 32 = Returned (big_endian_uint256 n).
Proof.
  intros Hn. rewrite int_to_bytes_in_range by (rewrite pow_256_32; done).
  by rewrite to_bytes_is_big_endian_uint256 by lia.
Qed.

Lemma length_big_endian_uint256 n : length (big_endian_uint256 n) = 32%nat.
Proof. unfold big_endian_uint256. by rewrite length_map, length_seq. Qed.

Lemma int_from_bytes_big_endian_uint256 n :
  0 <= n < 2 ^ 256 -> int_from_bytes (big_endian_uint256 n) = n.
Proof.
  intros Hn. rewrite <- to_bytes_is_big_endian_uint256 by lia.
  rewrite int_from_bytes_rev, little_endian_value_digits, pow_256_32.
  apply Z.mod_small. done.
Qed.

(** The 32 bytes are determined by their value. *)
Lemma Z_of_byte_inj a b : Z_of_byte a = Z_of_byte b -> a = b.
Proof.
  unfold Z_of_byte. intros Hab. apply N2Z.inj in Hab.
  pose proof (Byte.of_to_N a) as Ha. rewrite Hab, Byte.of_to_N in Ha.
  congruence.
Qed.

Lemma little_endian_value_inj (l k : bytes) :
  length l = length k ->
  little_endian_value l = little_endian_value k -> l = k.
Proof.
  revert k. induction l as [|x l IH]; intros [|y k] Hlen Hval; try done.
  cbn [little_endian_value fold_right] in Hval.
  fold (little_endian_value l) in Hval. fold (little_endian_value k) in Hval.
  pose proof (Z_of_byte_range x). pose proof (Z_of_byte_range y).
  assert (Z_of_byte x = Z_of_byte y /\ little_endian_value l = little_endian_value k)
    as [Hxy Hlk] by lia.
  f_equal; [by apply Z_of_byte_inj|]. apply IH; [by injection Hlen|done].
Qed.

Lemma int_from_bytes_inj (a b : bytes) :
  length a = length b -> int_from_bytes a = int_from_bytes b -> a = b.
Proof.
  intros Hlen Hval.
  rewrite <- (rev_involutive a), <- (rev_involutive b) in Hval |- *.
  rewrite !int_from_bytes_rev in Hval. f_equal.
  apply little_endian_value_inj; [by rewrite !length_rev|done].
Qed.

Lemma big_endian_uint256_unique (header : bytes) n :
  0 <= n < 2 ^ 256 ->
  length header = 32%nat -> int_from_bytes header = n ->
  header = big_endian_uint256 n.
Proof.
  intros Hn Hlen Hval. apply int_from_bytes_inj.
  - by rewrite length_big_endian_uint256.
  - by rewrite int_from_bytes_big_endian_uint256.
Qed.

Lemma len_nonneg {A} (l : list A) : 0 <= len l.
Proof. unfold len. lia. Qed.

Lemma len_app {A} (l k : list A) : len (l ++ k) = len l + len k.
Proof. unfold len. rewrite length_app. lia. Qed.

(** ** The script *)

Section Encoding.
Context {api : Api}.

Lemma script_entry_returns i :
  len (body_of i) < 2 ^ 256 -> script_entry i = Returned (record_of i).
Proof.
  intros Hlen. unfold script_entry. fold (body_of i).
  rewrite int_to_bytes_uint256 by (split; [apply len_nonneg|done]).
  reflexivity.
Qed.

Lemma script_entry_overflow i :
  2 ^ 256 <= len (body_of i) -> script_entry i = Raised OverflowError.
Proof.
  intros Hlen. unfold script_entry. fold (body_of i).
  rewrite int_to_bytes_overflow by (rewrite pow_256_32; done).
  reflexivity.
Qed.

Lemma reduce_app {A B} (f : A -> B -> A) xs ys a :
  reduce f (xs ++ ys) a = reduce f xs a ≫= reduce f ys.
Proof.
  revert a. induction xs as [|x xs IH]; intros a; [done|].
  destruct x as [b|e]; [|done]. apply IH.
Qed.

Lemma reduce_add_from items acc :
  reduce operator_add items acc = r ← reduce operator_add items []; mret (acc ++ r).
Proof.
  revert acc. induction items as [|item items IH]; intros acc.
  - cbn. by rewrite app_nil_r.
  - destruct item as [x|e]; [|done]. cbn.
    change (reduce operator_add items (acc ++ x)
            = r ← reduce operator_add items x; mret (acc ++ r)).
    rewrite (IH (acc ++ x)), (IH x).
    destruct (reduce operator_add items []) as [r|e]; [|done].
    cbn. by rewrite app_assoc.
Qed.

Lemma script_app xs ys :
  script (xs ++ ys) = a ← script xs; b ← script ys; mret (a ++ b).
Proof.
  unfold script. rewrite map_app, reduce_app.
  destruct (reduce operator_add (map script_entry xs) []) as [a|e]; [|done].
  cbn. apply reduce_add_from.
Qed.

Lemma script_cons i invocations :
  script (i :: invocations)
  = entry ← script_entry i; rest ← script invocations; mret (entry ++ rest).
Proof.
  unfold script. cbn [map reduce].
  destruct (script_entry i) as [entry|e]; [|done]. cbn.
  apply reduce_add_from.
Qed.

Lemma script_returns invocations :
  Forall (fun i => len (body_of i) < 2 ^ 256) invocations ->
  script invocations = Returned (concat (map record_of invocations)).
Proof.
  induction 1 as [|i invocations Hi _ IH]; [done|].
  rewrite script_cons, script_entry_returns, IH by done. reflexivity.
Qed.

End Encoding.

(** ** Parsing a script back *)

Lemma decode_records_step fuel b code :
  decode_records (S fuel) (b :: code) =
    if decide (length (b :: code) < 32)%nat then None
    else
      let n := Z.to_nat (int_from_bytes (take 32 (b :: code))) in
      let rest := drop 32 (b :: code) in
      if decide (length rest < n)%nat then None
      else if decide (n < 20)%nat then None
      else
        let body := take n rest in
        records ← decode_records fuel (drop n rest);
        Some ((take 20 body, drop 20 body) :: records).
Proof. reflexivity. Qed.

Lemma decode_records_header fuel (header a c rest : bytes) :
  length header = 32%nat ->
  int_from_bytes header = len (a ++ c) ->
  length a = 20%nat ->
  decode_records (S fuel) (header ++ (a ++ c) ++ rest)
  = records ← decode_records fuel rest; Some ((a, c) :: records).
Proof.
  intros Hh Hv Ha.
  destruct header as [|b header'] eqn:Eh; [done|].
  rewrite <- app_comm_cons, decode_records_step, app_comm_cons, <- Eh.
  rewrite <- Eh in Hh, Hv. clear Eh b header'.
  rewrite decide_False by (rewrite !length_app; lia).
  cbv zeta.
  rewrite take_app_length' by done. rewrite drop_app_length' by done.
  rewrite Hv. unfold len. rewrite Nat2Z.id.
  rewrite decide_False by (rewrite (length_app (a ++ c)); lia).
  rewrite decide_False by (rewrite length_app; lia).
  rewrite take_app_length, drop_app_length.
  rewrite take_app_length' by done. rewrite drop_app_length' by done.
  reflexivity.
Qed.

Lemma decode_records_record fuel (a c rest : bytes) :
  length a = 20%nat ->
  len (a ++ c) < 2 ^ 256 ->
  decode_records (S fuel) (big_endian_uint256 (len (a ++ c)) ++ (a ++ c) ++ rest)
  = records ← decode_records fuel rest; Some ((a, c) :: records).
Proof.
  intros Ha Hlen. apply decode_records_header; [|
    apply int_from_bytes_big_endian_uint256; split; [apply len_nonneg|done] |done].
  apply length_big_endian_uint256.
Qed.

Section Roundtrip.
Context {api : Api}.

Lemma decode_records_script fuel invocations :
  Forall (fun i => length (Address_as_bytes (address i)) = 20%nat
                   /\ len (body_of i) < 2 ^ 256) invocations ->
  (length invocations <= fuel)%nat ->
  decode_records fuel (concat (map record_of invocations))
  = Some (map fields_of invocations).
Proof.
  intros Hall. revert fuel.
  induction Hall as [|i invocations [Ha Hlen] _ IH]; intros fuel Hfuel.
  - by destruct fuel.
  - destruct fuel as [|fuel]; [simpl in Hfuel; lia|].
    cbn [map concat]. unfold record_of at 1. unfold body_of in *.
    rewrite <- app_assoc, decode_records_record by done.
    rewrite IH by (simpl in Hfuel; lia). reflexivity.
Qed.

Lemma length_record_of i : (32 <= length (record_of i))%nat.
Proof. unfold record_of. rewrite length_app, length_big_endian_uint256. lia. Qed.

Lemma length_concat_records invocations :
  (length invocations <= length (concat (map record_of invocations)))%nat.
Proof.
  induction invocations as [|i invocations IH]; [done|].
  cbn [map concat length]. rewrite length_app.
  pose proof (length_record_of i). lia.
Qed.

End Roundtrip.

(** ** The size of a script and what it determines *)

Section ScriptShape.
Context {api : Api}.

Lemma length_concat_records_sum invocations :
  length (concat (map record_of invocations))
  = sum_list_with (fun i => 32 + length (body_of i))%nat invocations.
Proof.
  induction invocations as [|i invocations IH]; [reflexivity|].
  cbn [map concat sum_list_with]. rewrite length_app, IH.
  unfold record_of. rewrite length_app, length_big_endian_uint256. lia.
Qed.

Lemma record_of_inj i j rest_i rest_j :
  len (body_of i) < 2 ^ 256 -> len (body_of j) < 2 ^ 256 ->
  record_of i ++ rest_i = record_of j ++ rest_j ->
  body_of i = body_of j /\ rest_i = rest_j.
Proof.
  intros Hi Hj Heq. unfold record_of in Heq. rewrite <- !app_assoc in Heq.
  apply app_inj_1 in Heq as [Hheader Hrest];
    [|by rewrite !length_big_endian_uint256].
  assert (Hlen : len (body_of i) = len (body_of j)).
  { rewrite <- (int_from_bytes_big_endian_uint256 (len (body_of i)))
      by (split; [apply len_nonneg|done]).
    rewrite Hheader.
    apply int_from_bytes_big_endian_uint256. split; [apply len_nonneg|done]. }
  apply app_inj_1 in Hrest; [done|]. unfold len in Hlen. lia.
Qed.

Lemma concat_records_inj xs ys :
  Forall (fun i => len (body_of i) < 2 ^ 256) xs ->
  Forall (fun i => len (body_of i) < 2 ^ 256) ys ->
  concat (map record_of xs) = concat (map record_of ys) ->
  map body_of xs = map body_of ys.
Proof.
  intros Hxs. revert ys.
  induction Hxs as [|x xs Hx _ IH]; intros ys Hys Heq.
  - destruct ys as [|y ys]; [done|].
    apply (f_equal length) in Heq. cbn [map concat length] in Heq.
    rewrite length_app in Heq. pose proof (length_record_of y). lia.
  - destruct Hys as [|y ys Hy Hys].
    + apply (f_equal length) in Heq. cbn [map concat length] in Heq.
      rewrite length_app in Heq. pose proof (length_record_of x). lia.
    + cbn [map concat] in Heq.
      apply record_of_inj in Heq as [Hbody Hrest]; [|done..].
      cbn [map]. f_equal; [done|]. by apply IH.
Qed.

End ScriptShape.

(** ** The methods of [TxManager] *)

Create HintDb frame.

Section Methods.
Context {api : Api} {collaborators : Collaborators}.

Lemma preserves_self_ret {A} (a : A) : preserves_self (mret a).
Proof. intros s. reflexivity. Qed.

Lemma preserves_self_lift {A} (o : outcome A) : preserves_self (lift o).
Proof. intros s. reflexivity. Qed.

Lemma preserves_self_get_self : preserves_self get_self.
Proof. intros s. reflexivity. Qed.

Lemma preserves_self_remote {A} call (action : World -> outcome A * World) :
  preserves_self (remote call action).
Proof. intros s. unfold remote. by destruct (action (world s)). Qed.

Lemma preserves_self_bind {A B} (m : M A) (f : A -> M B) :
  preserves_self m -> (forall a, preserves_self (f a)) ->
  preserves_self (m ≫= f).
Proof.
  intros Hm Hf s. specialize (Hm s).
  unfold mbind, M_mbind, M_bind.
  destruct (m s) as [[a|e] s']; simpl in *; [|done].
  by rewrite Hf.
Qed.

Lemma preserves_self_try_except {A} (body handler : M A) :
  preserves_self body -> preserves_self handler ->
  preserves_self (try_except body handler).
Proof.
  intros Hb Hh s. specialize (Hb s). unfold try_except.
  destruct (body s) as [[a|e] s']; simpl in *; [done|].
  by rewrite Hh.
Qed.

#[local] Hint Resolve preserves_self_ret preserves_self_lift
  preserves_self_get_self preserves_self_remote preserves_self_bind
  preserves_self_try_except : frame.

Lemma preserves_self_owner : preserves_self owner.
Proof. unfold owner. eauto 10 with frame. Qed.

Lemma preserves_self_execute tokens invocations :
  preserves_self (execute tokens invocations).
Proof. unfold execute, assert_. eauto 20 with frame. Qed.

(** What a call of [execute] on two lists does, once the script is known. *)
Lemma execute_run tokens invocations s code :
  script invocations = Returned code ->
  execute (PyList tokens) (PyList invocations) s =
    let contract := _contract (self s) in
    let addresses := token_addresses tokens in
    let sent := calls s ++ [TransactExecute contract addresses code] in
    match transact_execute contract addresses code (world s) with
    | (Raised _, w) =>
        (Returned None, {| self := self s; world := w; calls := sent |})
    | (Returned tx_hash, w) =>
        let asked := sent ++ [PrepareReceipt (web3 (self s)) tx_hash] in
        match _prepare_receipt (web3 (self s)) tx_hash w with
        | (Returned receipt, w') =>
            (Returned receipt, {| self := self s; world := w'; calls := asked |})
        | (Raised _, w') =>
            (Returned None, {| self := self s; world := w'; calls := asked |})
        end
    end.
Proof.
  intros Hcode.
  unfold execute, assert_, try_except, lift, get_self, remote,
    mbind, M_mbind, M_bind, mret, M_mret, M_ret.
  cbn. rewrite Hcode. cbn.
  destruct (transact_execute _ _ _ _) as [[tx_hash|e] w]; [|done].
  cbn. by destruct (_prepare_receipt _ _ _) as [[receipt|e] w'].
Qed.

Lemma execute_script_raises tokens invocations s e :
  script invocations = Raised e ->
  execute (PyList tokens) (PyList invocations) s = (Returned None, s).
Proof.
  intros Hcode.
  unfold execute, assert_, try_except, lift, get_self, remote,
    mbind, M_mbind, M_bind, mret, M_mret, M_ret.
  cbn. by rewrite Hcode.
Qed.

Lemma execute_lists_never_raise tokens invocations s e :
  fst (execute (PyList tokens) (PyList invocations) s) <> Raised e.
Proof.
  destruct (script invocations) as [code|e'] eqn:Hcode.
  - rewrite (execute_run _ _ _ _ Hcode). cbv zeta.
    destruct (transact_execute _ _ _ _) as [[tx_hash|e1] w]; [|done].
    by destruct (_prepare_receipt _ _ _) as [[receipt|e2] w'].
  - by rewrite (execute_script_raises _ _ _ _ Hcode).
Qed.

Lemma execute_not_a_list_raises tokens invocations s :
  isinstance_list tokens && isinstance_list invocations = false ->
  execute tokens invocations s = (Raised AssertionError, s).
Proof.
  by destruct tokens, invocations.
Qed.

Lemma owner_run s :
  owner s =
    let contract := _contract (self s) in
    let asked := calls s ++ [CallOwner contract] in
    match call_owner contract (world s) with
    | (Returned value, w) =>
        (Address_new value, {| self := self s; world := w; calls := asked |})
    | (Raised e, w) =>
        (Raised e, {| self := self s; world := w; calls := asked |})
    end.
Proof.
  unfold owner, lift, get_self, remote, mbind, M_mbind, M_bind. cbn.
  by destruct (call_owner _ _) as [[value|e] w].
Qed.

End Methods.

(** ** Constructing an [Invocation] *)

Section Construction.
Context {api : Api}.

Lemma isinstance_Address v :
  isinstance v class_Address = true <-> exists a, v = PyAddress a.
Proof.
  split; [|by intros [a ->]]. destruct v; try discriminate. by eexists.
Qed.

Lemma isinstance_Calldata v :
  isinstance v class_Calldata = true <-> exists c, v = PyCalldata c.
Proof.
  split; [|by intros [c ->]]. destruct v; try discriminate. by eexists.
Qed.

Lemma Invocation__init___rejects self address calldata :
  isinstance address class_Address && isinstance calldata class_Calldata = false ->
  Invocation__init__ self address calldata = (Raised AssertionError, self).
Proof.
  unfold Invocation__init__.
  destruct (isinstance address class_Address),
    (isinstance calldata class_Calldata); done.
Qed.

Lemma Invocation__init___accepts self address calldata :
  isinstance address class_Address && isinstance calldata class_Calldata = true ->
  Invocation__init__ self address calldata
  = (Returned (), <["calldata" := calldata]> (<["address" := address]> self)).
Proof.
  unfold Invocation__init__.
  destruct (isinstance address class_Address),
    (isinstance calldata class_Calldata); done.
Qed.

Lemma Invocation_of_instance_attributes a c :
  Invocation_of_instance
    (<["calldata" := PyCalldata c]> (<["address" := PyAddress a]> ∅))
  = Some {| address := a; calldata := c |}.
Proof.
  unfold Invocation_of_instance.
  rewrite lookup_insert_ne by done.
  rewrite !lookup_insert_eq. reflexivity.
Qed.

End Construction.

(** * The claims *)

(** C1.  For every list of invocations the script is the concatenation, in
    order and with no separators, of one entry per invocation; the entry of
    [i] is [header ++ body], where [body] is the bytes of [i.address]
    immediately followed by the bytes of [i.calldata], and [header] is
    [len(body)] as an unsigned 256-bit big-endian integer: 32 bytes whose
    big-endian value is [len(body)].  The premise bounds each body below
    [2^256] bytes, which every Python [bytes] object satisfies (its length is
    at most [sys.maxsize]); lists have no such bound. *)
Theorem script_concatenates_entries {api : Api} (invocations : list Invocation) :
  Forall (fun i => len (body_of i) < 2 ^ 256) invocations ->
  script invocations = Returned (concat (map record_of invocations))
  /\ Forall (fun i =>
       script_entry i = Returned (record_of i)
       /\ record_of i
          = big_endian_uint256 (len (body_of i))
            ++ Address_as_bytes (address i) ++ Calldata_as_bytes (calldata i)
       /\ length (big_endian_uint256 (len (body_of i))) = 32%nat
       /\ int_from_bytes (big_endian_uint256 (len (body_of i)))
          = len (Address_as_bytes (address i) ++ Calldata_as_bytes (calldata i)))
     invocations.
Proof.
  intros Hall. split; [by apply script_returns|].
  eapply Forall_impl; [exact Hall|]. intros i Hi. cbv beta in Hi.
  split; [|split; [|split]].
  - by apply script_entry_returns.
  - reflexivity.
  - apply length_big_endian_uint256.
  - apply int_from_bytes_big_endian_uint256. split; [apply len_nonneg|done].
Qed.

(** C1 on two invocations over [bytes_api]. *)
Lemma script_concatenates_entries_witness :
  script two_invocations = Returned (concat (map record_of two_invocations))
  /\ Forall (fun i =>
       script_entry i = Returned (record_of i)
       /\ record_of i
          = big_endian_uint256 (len (body_of i))
            ++ Address_as_bytes (address i) ++ Calldata_as_bytes (calldata i)
       /\ length (big_endian_uint256 (len (body_of i))) = 32%nat
       /\ int_from_bytes (big_endian_uint256 (len (body_of i)))
          = len (Address_as_bytes (address i) ++ Calldata_as_bytes (calldata i)))
     two_invocations.
Proof.
  apply (script_concatenates_entries two_invocations).
  repeat constructor.
Defined.

(** C2.  For every list of invocations (the non-empty ones in particular)
    whose addresses are exactly 20 bytes, parsing the script back -- a
    32-byte big-endian length, that many body bytes, the body split into a
    20-byte address and the rest as calldata, repeatedly -- yields the
    original (address, calldata) sequence in order; and the length field of
    every record is [len(address bytes) + len(calldata bytes)], whatever the
    size of the calldata. *)
Theorem script_round_trip {api : Api} (invocations : list Invocation) :
  Forall (fun i => length (Address_as_bytes (address i)) = 20%nat
                   /\ len (body_of i) < 2 ^ 256) invocations ->
  exists code,
    script invocations = Returned code
    /\ decode_script code = Some (map fields_of invocations)
    /\ Forall (fun i => exists entry,
         script_entry i = Returned entry
         /\ int_from_bytes (take 32 entry)
            = len (Address_as_bytes (address i))
              + len (Calldata_as_bytes (calldata i)))
       invocations.
Proof.
  intros Hall. exists (concat (map record_of invocations)).
  split; [|split].
  - apply script_returns. eapply Forall_impl; [exact Hall|]. by intros i [_ Hi].
  - apply decode_records_script; [done|apply length_concat_records].
  - eapply Forall_impl; [exact Hall|]. intros i [_ Hi].
    exists (record_of i). split; [by apply script_entry_returns|].
    unfold record_of.
    rewrite take_app_length' by (symmetry; apply length_big_endian_uint256).
    rewrite int_from_bytes_big_endian_uint256
      by (split; [apply len_nonneg|done]).
    apply len_app.
Qed.

(** C2 on two invocations over [bytes_api]. *)
Lemma script_round_trip_witness :
  exists code,
    script two_invocations = Returned code
    /\ decode_script code = Some (map fields_of two_invocations)
    /\ Forall (fun i => exists entry,
         script_entry i = Returned entry
         /\ int_from_bytes (take 32 entry)
            = len (Address_as_bytes (address i))
              + len (Calldata_as_bytes (calldata i)))
       two_invocations.
Proof.
  apply (script_round_trip two_invocations).
  repeat constructor.
Defined.

(** The sizes the specification singles out. *)
Example length_field_at_boundary_sizes :
  Forall (fun size =>
    let c := replicate (Z.to_nat size) xff in
    exists entry,
      script_entry (invocation_of zero_address c) = Returned entry
      /\ int_from_bytes (take 32 entry) = 20 + size
      /\ decode_script entry = Some [(zero_address, c)])
    [0; 1; 31; 32; 10000].
Proof.
  repeat constructor;
    (eexists; split; [vm_compute; reflexivity|split; vm_compute; reflexivity]).
Qed.

(** C3.  When the remote [execute] call raises, or it returns a transaction
    hash and resolving the receipt raises, whatever the exception, [execute]
    returns [None]; it does not raise. *)
Theorem execute_returns_none_on_failure
    {api : Api} {collaborators : Collaborators}
    (tokens : list Address) (invocations : list Invocation)
    (s : state) (code : bytes) (e : exception) :
  script invocations = Returned code ->
  (let contract := _contract (self s) in
   let addresses := token_addresses tokens in
   (exists w, transact_execute contract addresses code (world s) = (Raised e, w))
   \/ (exists tx_hash w w',
         transact_execute contract addresses code (world s) = (Returned tx_hash, w)
         /\ _prepare_receipt (web3 (self s)) tx_hash w = (Raised e, w'))) ->
  fst (execute (PyList tokens) (PyList invocations) s) = Returned None
  /\ forall e', fst (execute (PyList tokens) (PyList invocations) s) <> Raised e'.
Proof.
  intros Hcode Hfail. split; [|intros e'; apply execute_lists_never_raise].
  rewrite (execute_run _ _ _ _ Hcode). cbv zeta in *.
  destruct Hfail as [[w Hw]|(tx_hash & w & w' & Hw & Hw')].
  - by rewrite Hw.
  - by rewrite Hw, Hw'.
Qed.

(** C3 on a node that refuses the connection. *)
Lemma execute_returns_none_on_failure_witness :
  fst (@execute bytes_api counter_node (PyList one_token) (PyList two_invocations)
         (client_state false true)) = Returned None
  /\ forall e', fst (@execute bytes_api counter_node (PyList one_token) (PyList two_invocations)
                       (client_state false true)) <> Raised e'.
Proof.
  eapply (execute_returns_none_on_failure (api := bytes_api)
            (collaborators := counter_node)
            one_token two_invocations (client_state false true) _
            (RemoteError "connection refused")).
  - vm_compute. reflexivity.
  - left. eexists. vm_compute. reflexivity.
Defined.

(** The receipt resolver failing after a successful submission. *)
Example execute_returns_none_when_receipt_fails :
  let after := @execute bytes_api counter_node
                 (PyList one_token) (PyList two_invocations)
                 (client_state true false) in
  fst after = Returned None
  /\ world (snd after) = {| online := true; indexing := false; mined := 1 |}
  /\ calls (snd after)
     = [@TransactExecute bytes_api counter_node zero_address one_token
          (concat (map record_of two_invocations));
        @PrepareReceipt bytes_api counter_node () 0%nat].
Proof. vm_compute. repeat split. Qed.

Example execute_returns_receipt :
  fst (@execute bytes_api counter_node (PyList one_token) (PyList two_invocations)
         (client_state true true)) = Returned (Some 0%nat).
Proof. vm_compute. reflexivity. Qed.

(** C4, as the code has it.  For a single invocation whose address is 20
    zero bytes and whose calldata is empty, the script is 31 zero bytes, the
    byte [0x14], then 20 zero bytes: 52 bytes in all, and its 32-byte length
    field decodes to 20, the length of the address. *)
Theorem script_of_zero_invocation {api : Api} (i : Invocation) :
  Address_as_bytes (address i) = replicate 20 x00 ->
  Calldata_as_bytes (calldata i) = [] ->
  script [i] = Returned (replicate 31 x00 ++ [x14] ++ replicate 20 x00)
  /\ length (replicate 31 x00 ++ [x14] ++ replicate 20 x00) = 52%nat
  /\ int_from_bytes (take 32 (replicate 31 x00 ++ [x14] ++ replicate 20 x00)) = 20.
Proof.
  intros Ha Hc. split; [|by vm_compute].
  assert (Hbody : body_of i = replicate 20 x00)
    by (unfold body_of; rewrite Ha, Hc; reflexivity).
  rewrite script_returns.
  - cbn [map concat]. unfold record_of. rewrite Hbody. reflexivity.
  - constructor; [|constructor]. rewrite Hbody. reflexivity.
Qed.

(** The amended C4 on the zero address over [bytes_api]. *)
Lemma script_of_zero_invocation_witness :
  script [invocation_of zero_address []]
  = Returned (replicate 31 x00 ++ [x14] ++ replicate 20 x00)
  /\ length (replicate 31 x00 ++ [x14] ++ replicate 20 x00) = 52%nat
  /\ int_from_bytes (take 32 (replicate 31 x00 ++ [x14] ++ replicate 20 x00)) = 20.
Proof.
  apply (script_of_zero_invocation (invocation_of zero_address []));
    reflexivity.
Defined.

(** C4 as stated fails: for that invocation the script is not 32 zero bytes
    followed by 20 zero bytes, and its length field does not decode to 0. *)
Lemma zero_invocation_length_field_is_not_zero :
  script [invocation_of zero_address []]
  = Returned (replicate 31 x00 ++ [x14] ++ replicate 20 x00)
  /\ replicate 31 x00 ++ [x14] ++ replicate 20 x00
     <> replicate 32 x00 ++ replicate 20 x00
  /\ int_from_bytes (take 32 (replicate 31 x00 ++ [x14] ++ replicate 20 x00)) <> 0.
Proof.
  split; [vm_compute; reflexivity|]. split; vm_compute; discriminate.
Qed.

(** C5.  The token array is the list of the tokens' [address] attributes in
    the order given, one per token (same length, same positions; for
    [[A, B]] it is [[A.address, B.address]], also when [A = B]), and it is
    this list that the remote [execute] call receives. *)
Theorem token_addresses_keep_order
    {api : Api} {collaborators : Collaborators}
    (tokens : list Address) (invocations : list Invocation)
    (s : state) (code : bytes) :
  script invocations = Returned code ->
  token_addresses tokens = map Address_address tokens
  /\ length (token_addresses tokens) = length tokens
  /\ (forall k, token_addresses tokens !! k = Address_address <$> tokens !! k)
  /\ (forall A B, token_addresses [A; B] = [Address_address A; Address_address B])
  /\ exists later,
       calls (snd (execute (PyList tokens) (PyList invocations) s))
       = calls s
         ++ TransactExecute (_contract (self s)) (map Address_address tokens) code
         :: later.
Proof.
  intros Hcode. split; [done|]. split; [apply length_map|].
  split; [intros k; apply list_lookup_fmap|]. split; [done|].
  rewrite (execute_run _ _ _ _ Hcode). cbv zeta.
  fold (token_addresses tokens).
  destruct (transact_execute _ _ _ _) as [[tx_hash|e] w].
  - destruct (_prepare_receipt _ _ _) as [[receipt|e] w'];
      eexists; cbn [snd calls]; rewrite <- app_assoc; reflexivity.
  - by exists [].
Qed.

(** C5 on two tokens and a node that is online. *)
Lemma token_addresses_keep_order_witness :
  token_addresses two_tokens = map Address_address two_tokens
  /\ length (token_addresses two_tokens) = length two_tokens
  /\ (forall k, token_addresses two_tokens !! k = Address_address <$> two_tokens !! k)
  /\ (forall A B : @Address bytes_api,
        token_addresses [A; B] = [Address_address A; Address_address B])
  /\ exists later,
       calls (snd (@execute bytes_api counter_node
                     (PyList two_tokens) (PyList two_invocations)
                     (client_state true true)))
       = calls (client_state true true)
         ++ TransactExecute (_contract (self (client_state true true)))
              (map Address_address two_tokens)
              (concat (map record_of two_invocations))
         :: later.
Proof.
  apply (token_addresses_keep_order (collaborators := counter_node)
           two_tokens two_invocations (client_state true true)).
  vm_compute. reflexivity.
Defined.

Example token_addresses_in_given_order :
  token_addresses two_tokens = [node_owner; zero_address]
  /\ token_addresses (api := bytes_api) [zero_address; zero_address]
     = [zero_address; zero_address].
Proof. split; reflexivity. Qed.

(** C6.  For the empty list of invocations the script is the empty byte
    string, and that is what the remote [execute] call receives. *)
Theorem script_of_no_invocations
    {api : Api} {collaborators : Collaborators} (tokens : list Address) (s : state) :
  script [] = Returned []
  /\ exists later,
       calls (snd (execute (PyList tokens) (PyList []) s))
       = calls s
         ++ TransactExecute (_contract (self s)) (token_addresses tokens) []
         :: later.
Proof.
  split; [reflexivity|].
  rewrite (execute_run tokens [] s [] eq_refl). cbv zeta.
  destruct (transact_execute _ _ _ _) as [[tx_hash|e] w].
  - destruct (_prepare_receipt _ _ _) as [[receipt|e] w'];
      eexists; cbn [snd calls]; rewrite <- app_assoc; reflexivity.
  - by exists [].
Qed.

(** C7.  [owner] raises exactly the exception the remote read raises; when
    the read returns a value, [owner] yields [Address(value)]. *)
Theorem owner_propagates_read_failure
    {api : Api} {collaborators : Collaborators}
    (s : state) (r : outcome AddressValue) (w : World) :
  call_owner (_contract (self s)) (world s) = (r, w) ->
  fst (owner s)
  = match r with
    | Raised e => Raised e
    | Returned value => Address_new value
    end.
Proof.
  intros Hr. rewrite owner_run. cbv zeta. rewrite Hr. by destruct r.
Qed.

(** C7 on a node that refuses the connection. *)
Lemma owner_propagates_read_failure_witness :
  fst (@owner bytes_api counter_node (client_state false true))
  = Raised (RemoteError "connection refused").
Proof.
  apply (owner_propagates_read_failure (collaborators := counter_node)
           (client_state false true)
           (Raised (RemoteError "connection refused"))
           (world (client_state false true))).
  reflexivity.
Defined.

Example owner_returns_the_owner :
  fst (@owner bytes_api counter_node (client_state true true)) = Returned node_owner.
Proof. reflexivity. Qed.

(** C8.  Constructing an [Invocation] raises [AssertionError] whenever the
    first argument is not an [Address] or the second is not a [Calldata], and
    then no attribute has been set on the object; when both have the
    expected types the constructor returns an object whose attributes are
    the two arguments. *)
Theorem Invocation_construction_checks_types {api : Api}
    (address calldata : pyvalue) :
  (isinstance address class_Address && isinstance calldata class_Calldata = false ->
     Invocation_new address calldata = Raised AssertionError
     /\ snd (Invocation__init__ ∅ address calldata) = ∅)
  /\ (isinstance address class_Address && isinstance calldata class_Calldata = true ->
     exists a c,
       address = PyAddress a /\ calldata = PyCalldata c
       /\ Invocation_new address calldata
          = Returned (<["calldata" := calldata]> (<["address" := address]> ∅))
       /\ Invocation_of_instance
            (<["calldata" := calldata]> (<["address" := address]> ∅))
          = Some (Build_Invocation a c)).
Proof.
  split; intros Htypes.
  - unfold Invocation_new.
    by rewrite (Invocation__init___rejects _ _ _ Htypes).
  - apply andb_true_iff in Htypes as [Ha Hc].
    apply isinstance_Address in Ha as [a ->].
    apply isinstance_Calldata in Hc as [c ->].
    exists a, c. split; [done|]. split; [done|]. split.
    + unfold Invocation_new.
      by rewrite Invocation__init___accepts.
    + apply Invocation_of_instance_attributes.
Qed.

Example Invocation_rejects_bytes_for_address :
  Invocation_new (@PyBytes bytes_api zero_address) (@PyCalldata bytes_api [x01])
  = Raised AssertionError.
Proof. reflexivity. Qed.

Example Invocation_rejects_none_for_calldata :
  Invocation_new (@PyAddress bytes_api zero_address) PyNone = Raised AssertionError.
Proof. reflexivity. Qed.

Example Invocation_accepts_right_types :
  (Invocation_new (@PyAddress bytes_api zero_address) (@PyCalldata bytes_api [x01])
   ≫= fun self => Returned (Invocation_of_instance self))
  = Returned (Some (invocation_of zero_address [x01])).
Proof. vm_compute. reflexivity. Qed.

(** C9.  Neither [owner] nor [execute] changes the client: after either call,
    on any arguments and whether it returns or raises, [self] -- hence its
    connection handle, address and contract proxy -- is what it was; and what
    the two methods return and do to the world does not depend on the calls
    made before. *)
Theorem methods_leave_client_unchanged
    {api : Api} {collaborators : Collaborators}
    (tokens : argument Address) (invocations : argument Invocation) (s : state) :
  (self (snd (owner s)) = self s
   /\ self (snd (execute tokens invocations s)) = self s)
  /\ (web3 (self (snd (execute tokens invocations s))) = web3 (self s)
      /\ TxManager_address (self (snd (execute tokens invocations s)))
         = TxManager_address (self s)
      /\ _contract (self (snd (execute tokens invocations s))) = _contract (self s))
  /\ forall log,
       fst (owner (with_calls s log)) = fst (owner s)
       /\ world (snd (owner (with_calls s log))) = world (snd (owner s))
       /\ fst (execute tokens invocations (with_calls s log))
          = fst (execute tokens invocations s)
       /\ world (snd (execute tokens invocations (with_calls s log)))
          = world (snd (execute tokens invocations s)).
Proof.
  pose proof (preserves_self_owner s) as Ho.
  pose proof (preserves_self_execute tokens invocations s) as He.
  split; [done|]. split; [by rewrite He|].
  intros log. rewrite !owner_run. cbv zeta. cbn [with_calls self world calls].
  split; [|split].
  - by destruct (call_owner _ _) as [[value|e] w].
  - by destruct (call_owner _ _) as [[value|e] w].
  - destruct tokens as [tokens|v]; [|by destruct invocations].
    destruct invocations as [invocations|v]; [|done].
    destruct (script invocations) as [code|e] eqn:Hcode.
    + rewrite !(execute_run _ _ _ _ Hcode). cbv zeta.
      cbn [with_calls self world calls].
      destruct (transact_execute _ _ _ _) as [[tx_hash|e] w]; [|done].
      by destruct (_prepare_receipt _ _ _) as [[receipt|e] w'].
    + by rewrite !(execute_script_raises _ _ _ _ Hcode).
Qed.

(** C10.  The script of a concatenation is the concatenation of the
    scripts (the first failing entry, if any, deciding the exception), and
    equal invocation lists give equal scripts. *)
Theorem script_is_a_list_homomorphism {api : Api} (xs ys : list Invocation) :
  script (xs ++ ys) = (a ← script xs; b ← script ys; mret (a ++ b))
  /\ (forall a b, script xs = Returned a -> script ys = Returned b ->
        script (xs ++ ys) = Returned (a ++ b))
  /\ (xs = ys -> script xs = script ys).
Proof.
  split; [apply script_app|]. split.
  - intros a b Ha Hb. by rewrite script_app, Ha, Hb.
  - by intros ->.
Qed.

Example script_of_two_lists :
  script (two_invocations ++ [invocation_of zero_address []])
  = Returned (concat (map record_of two_invocations)
              ++ record_of (invocation_of zero_address [])).
Proof. vm_compute. reflexivity. Qed.

(** * Further properties of the code *)

(** X1.  When [tokens] or [invocations] is not a list, [execute] raises
    [AssertionError] to its caller -- the two assertions stand before the
    [try] -- and nothing else happens: no remote call is made and the world
    is untouched. *)
Theorem execute_rejects_non_lists
    {api : Api} {collaborators : Collaborators}
    (tokens : argument Address) (invocations : argument Invocation) (s : state) :
  isinstance_list tokens && isinstance_list invocations = false ->
  execute tokens invocations s = (Raised AssertionError, s).
Proof.
  intros Hlists. destruct tokens as [tokens|v]; [|done].
  destruct invocations as [invocations|v]; [discriminate|done].
Qed.

(** X1 on a [bytes] object given as [tokens]. *)
Lemma execute_rejects_non_lists_witness :
  @execute bytes_api counter_node (NotAList (PyBytes zero_address))
    (PyList two_invocations) (client_state true true)
  = (Raised AssertionError, client_state true true).
Proof.
  apply (execute_rejects_non_lists (collaborators := counter_node)).
  reflexivity.
Defined.

(** X2.  The script is 32 bytes longer, per invocation, than the address and
    calldata bytes it carries, and it is empty only for the empty list. *)
Theorem script_length {api : Api} (invocations : list Invocation) :
  Forall (fun i => len (body_of i) < 2 ^ 256) invocations ->
  exists code,
    script invocations = Returned code
    /\ length code
       = sum_list_with
           (fun i => 32 + length (Address_as_bytes (address i))
                     + length (Calldata_as_bytes (calldata i)))%nat
           invocations
    /\ (code = [] <-> invocations = []).
Proof.
  intros Hall. exists (concat (map record_of invocations)).
  split; [by apply script_returns|]. split.
  - rewrite length_concat_records_sum.
    induction invocations as [|i invocations IH]; [done|].
    cbn [sum_list_with]. unfold body_of at 1. rewrite length_app.
    rewrite IH by (by inversion Hall). lia.
  - split.
    + intros Hnil. destruct invocations as [|i invocations]; [done|].
      apply (f_equal length) in Hnil. cbn [map concat length] in Hnil.
      rewrite length_app in Hnil. pose proof (length_record_of i). lia.
    + by intros ->.
Qed.

(** X2 on two invocations over [bytes_api]. *)
Lemma script_length_witness :
  exists code,
    script two_invocations = Returned code
    /\ length code
       = sum_list_with
           (fun i => 32 + length (Address_as_bytes (address i))
                     + length (Calldata_as_bytes (calldata i)))%nat
           two_invocations
    /\ (code = [] <-> two_invocations = []).
Proof.
  apply (script_length two_invocations). repeat constructor.
Defined.

(** X3.  Equal scripts carry the same bodies, in the same order; when every
    address is 20 bytes long they carry the same addresses and the same
    calldata. *)
Theorem script_determines_bodies {api : Api} (xs ys : list Invocation) :
  Forall (fun i => len (body_of i) < 2 ^ 256) xs ->
  Forall (fun i => len (body_of i) < 2 ^ 256) ys ->
  script xs = script ys ->
  map body_of xs = map body_of ys
  /\ (Forall (fun i => length (Address_as_bytes (address i)) = 20%nat) (xs ++ ys) ->
      map fields_of xs = map fields_of ys).
Proof.
  intros Hxs Hys Heq.
  rewrite (script_returns _ Hxs), (script_returns _ Hys) in Heq.
  injection Heq as Heq.
  pose proof (concat_records_inj _ _ Hxs Hys Heq) as Hbodies.
  split; [done|]. clear Heq Hxs Hys. intros H20.
  apply Forall_app in H20 as [Hx20 Hy20]. revert ys Hy20 Hbodies.
  induction Hx20 as [|x xs Hx _ IH]; intros [|y ys] Hy20 Hbodies; try done.
  inversion Hy20 as [|? ? Hy Hys20]; subst.
  cbn [map] in *. injection Hbodies as Hbody Hrest.
  unfold body_of in Hbody. apply app_inj_1 in Hbody as [Ha Hc]; [|congruence].
  f_equal; [|by apply IH]. unfold fields_of. by rewrite Ha, Hc.
Qed.

(** X3 on two lists with the same bodies, split differently. *)
Lemma script_determines_bodies_witness :
  map body_of two_invocations = map body_of other_invocations
  /\ (Forall (fun i => length (Address_as_bytes (address i)) = 20%nat)
        (two_invocations ++ other_invocations) ->
      map fields_of two_invocations = map fields_of other_invocations).
Proof.
  apply (script_determines_bodies two_invocations other_invocations).
  - repeat constructor.
  - repeat constructor.
  - vm_compute. reflexivity.
Defined.

(** Without fixed-size addresses the split of a body is not determined. *)
Example same_script_different_fields :
  script two_invocations = script other_invocations
  /\ map fields_of two_invocations <> map fields_of other_invocations.
Proof. split; [vm_compute; reflexivity|vm_compute; discriminate]. Qed.

(** X4.  Once the script is built, [execute] calls the contract's [execute]
    exactly once, with the token addresses and the script, and resolves a
    receipt -- once, for the hash returned -- only if that call returned;
    the world it leaves is the one left by the last call it made, also when
    it returns [None]. *)
Theorem execute_calls_in_order
    {api : Api} {collaborators : Collaborators}
    (tokens : list Address) (invocations : list Invocation)
    (s : state) (code : bytes) :
  script invocations = Returned code ->
  let contract := _contract (self s) in
  let addresses := token_addresses tokens in
  let submitted := transact_execute contract addresses code (world s) in
  calls (snd (execute (PyList tokens) (PyList invocations) s))
  = calls s
    ++ TransactExecute contract addresses code
    :: match fst submitted with
       | Returned tx_hash => [PrepareReceipt (web3 (self s)) tx_hash]
       | Raised _ => []
       end
  /\ world (snd (execute (PyList tokens) (PyList invocations) s))
     = match fst submitted with
       | Returned tx_hash =>
           snd (_prepare_receipt (web3 (self s)) tx_hash (snd submitted))
       | Raised _ => snd submitted
       end.
Proof.
  intros Hcode contract addresses submitted.
  rewrite (execute_run _ _ _ _ Hcode). cbv zeta.
  subst submitted contract addresses.
  destruct (transact_execute _ _ _ _) as [[tx_hash|e] w]; [|done].
  cbn [fst snd].
  destruct (_prepare_receipt _ _ _) as [[receipt|e] w'];
    cbn [snd calls world]; by rewrite <- app_assoc.
Qed.

(** X4 on a node that refuses the connection. *)
Lemma execute_calls_in_order_witness :
  let s := client_state false true in
  let code := concat (map record_of two_invocations) in
  let contract := _contract (self s) in
  let addresses := token_addresses two_tokens in
  let submitted := transact_execute contract addresses code (world s) in
  calls (snd (execute (PyList two_tokens) (PyList two_invocations) s))
  = calls s
    ++ TransactExecute contract addresses code
    :: match fst submitted with
       | Returned tx_hash => [PrepareReceipt (web3 (self s)) tx_hash]
       | Raised _ => []
       end
  /\ world (snd (execute (PyList two_tokens) (PyList two_invocations) s))
     = match fst submitted with
       | Returned tx_hash =>
           snd (_prepare_receipt (web3 (self s)) tx_hash (snd submitted))
       | Raised _ => snd submitted
       end.
Proof.
  apply (execute_calls_in_order (collaborators := counter_node)
           two_tokens two_invocations (client_state false true)).
  vm_compute. reflexivity.
Defined.

(** X5.  When the submission returns a hash and the resolver returns for it,
    [execute] returns what the resolver returned, be it a receipt or
    [None]. *)
Theorem execute_returns_the_resolved_receipt
    {api : Api} {collaborators : Collaborators}
    (tokens : list Address) (invocations : list Invocation)
    (s : state) (code : bytes) (tx_hash : TxHash) (receipt : option Receipt)
    (w w' : World) :
  script invocations = Returned code ->
  transact_execute (_contract (self s)) (token_addresses tokens) code (world s)
  = (Returned tx_hash, w) ->
  _prepare_receipt (web3 (self s)) tx_hash w = (Returned receipt, w') ->
  fst (execute (PyList tokens) (PyList invocations) s) = Returned receipt
  /\ world (snd (execute (PyList tokens) (PyList invocations) s)) = w'.
Proof.
  intros Hcode Hsubmit Hreceipt.
  rewrite (execute_run _ _ _ _ Hcode). cbv zeta.
  by rewrite Hsubmit, Hreceipt.
Qed.

(** X5 on a node that is online and indexing. *)
Lemma execute_returns_the_resolved_receipt_witness :
  fst (@execute bytes_api counter_node (PyList two_tokens) (PyList two_invocations)
         (client_state true true)) = Returned (Some 0%nat)
  /\ world (snd (@execute bytes_api counter_node (PyList two_tokens)
                   (PyList two_invocations) (client_state true true)))
     = {| online := true; indexing := true; mined := 1 |}.
Proof.
  apply (execute_returns_the_resolved_receipt (collaborators := counter_node)
           two_tokens two_invocations (client_state true true)
           (concat (map record_of two_invocations)) 0%nat (Some 0%nat)
           {| online := true; indexing := true; mined := 1 |}
           {| online := true; indexing := true; mined := 1 |});
    vm_compute; reflexivity.
Defined.

(** X6.  [owner] makes one remote call, the read of [owner()] on the
    client's contract proxy, and no other: it submits no transaction and
    resolves no receipt, whether the read returns or raises. *)
Theorem owner_makes_one_read
    {api : Api} {collaborators : Collaborators} (s : state) :
  calls (snd (owner s)) = calls s ++ [CallOwner (_contract (self s))]
  /\ world (snd (owner s)) = snd (call_owner (_contract (self s)) (world s)).
Proof.
  rewrite owner_run. cbv zeta.
  by destruct (call_owner _ _) as [[value|e] w].
Qed.

(** X7.  Constructing a [TxManager] raises what the contract-existence check
    raises; when the check passes, the client holds the [web3] and address
    it was given, and its [owner] and [execute] calls go to the contract
    proxy of that address. *)
Theorem TxManager_construction
    {api : Api} {collaborators : Collaborators}
    (w3 : Web3) (a : Address) (w w' : World) (r : outcome unit) :
  _assert_contract_exists w3 a w = (r, w') ->
  match r with
  | Raised e => TxManager__init__ w3 a w = (Raised e, w')
  | Returned _ =>
      exists client,
        TxManager__init__ w3 a w = (Returned client, w')
        /\ web3 client = w3
        /\ TxManager_address client = a
        /\ forall log tokens invocations code,
             script invocations = Returned code ->
             let s := {| self := client; world := w'; calls := log |} in
             calls (snd (owner s))
             = log ++ [CallOwner (eth_contract w3 (Address_address a))]
             /\ exists later,
                  calls (snd (execute (PyList tokens) (PyList invocations) s))
                  = log ++ TransactExecute
                             (eth_contract w3 (Address_address a))
                             (token_addresses tokens) code
                        :: later
  end.
Proof.
  intros Hcheck. unfold TxManager__init__. rewrite Hcheck.
  destruct r as [[]|e]; [|done].
  eexists. split; [reflexivity|]. split; [done|]. split; [done|].
  intros log tokens invocations code Hcode. split.
  - rewrite owner_run. cbv zeta. cbn [self world calls _contract].
    by destruct (call_owner _ _) as [[value|e] w''].
  - rewrite (execute_run _ _ _ _ Hcode). cbv zeta.
    cbn [self world calls _contract web3].
    destruct (transact_execute _ _ _ _) as [[tx_hash|e] w1].
    + destruct (_prepare_receipt _ _ _) as [[receipt|e] w2];
        eexists; cbn [snd calls]; rewrite <- app_assoc; reflexivity.
    + by exists [].
Qed.

(** X7 on a node where the contract exists. *)
Lemma TxManager_construction_witness :
  exists client : @TxManager bytes_api counter_node,
    @TxManager__init__ bytes_api counter_node () node_owner fresh_node
    = (Returned client, fresh_node)
    /\ web3 client = ()
    /\ TxManager_address client = node_owner
    /\ forall log tokens invocations code,
         script invocations = Returned code ->
         let s := @Build_state bytes_api counter_node client fresh_node log in
         calls (snd (owner s))
         = log ++ [@CallOwner bytes_api counter_node node_owner]
         /\ exists later,
              calls (snd (execute (PyList tokens) (PyList invocations) s))
              = log ++ @TransactExecute bytes_api counter_node node_owner
                         (token_addresses tokens) code
                    :: later.
Proof.
  apply (TxManager_construction (api := bytes_api) (collaborators := counter_node)
           () node_owner fresh_node fresh_node (Returned ())).
  reflexivity.
Defined.

(** X8.  [Invocation.__init__] on any object: either both arguments have
    the expected types, and then the two attributes are set to them and
    every other attribute is left as it was; or it raises [AssertionError]
    and the object is exactly as before. *)
Theorem Invocation__init___all_or_nothing {api : Api}
    (self : gmap string pyvalue) (address calldata : pyvalue) :
  if isinstance address class_Address && isinstance calldata class_Calldata
  then
    fst (Invocation__init__ self address calldata) = Returned ()
    /\ snd (Invocation__init__ self address calldata) !! "address" = Some address
    /\ snd (Invocation__init__ self address calldata) !! "calldata" = Some calldata
    /\ forall name : string,
         name <> "address"%string -> name <> "calldata"%string ->
         snd (Invocation__init__ self address calldata) !! name = self !! name
  else
    Invocation__init__ self address calldata = (Raised AssertionError, self).
Proof.
  destruct (isinstance address class_Address && isinstance calldata class_Calldata)
    eqn:Htypes.
  - rewrite (Invocation__init___accepts _ _ _ Htypes). cbn [fst snd].
    split; [done|]. split; [|split].
    + rewrite lookup_insert_ne by done. apply lookup_insert_eq.
    + apply lookup_insert_eq.
    + intros name Ha Hc. by rewrite !lookup_insert_ne.
  - by apply Invocation__init___rejects.
Qed.

(** X9.  [owner] and [execute] never read [self.address]: rebinding it
    changes neither what they return nor the calls they make nor the world
    they leave; the calls go to the proxy bound at construction. *)
Theorem methods_do_not_read_the_address
    {api : Api} {collaborators : Collaborators}
    (tokens : argument Address) (invocations : argument Invocation)
    (s : state) (a : Address) :
  (fst (owner (with_address s a)) = fst (owner s)
   /\ world (snd (owner (with_address s a))) = world (snd (owner s))
   /\ calls (snd (owner (with_address s a))) = calls (snd (owner s)))
  /\ (fst (execute tokens invocations (with_address s a))
      = fst (execute tokens invocations s)
      /\ world (snd (execute tokens invocations (with_address s a)))
         = world (snd (execute tokens invocations s))
      /\ calls (snd (execute tokens invocations (with_address s a)))
         = calls (snd (execute tokens invocations s))).
Proof.
  split.
  - rewrite !owner_run. cbv zeta. cbn [with_address self world calls _contract].
    by destruct (call_owner _ _) as [[value|e] w].
  - destruct tokens as [tokens|v]; [|by destruct invocations].
    destruct invocations as [invocations|v]; [|done].
    destruct (script invocations) as [code|e] eqn:Hcode.
    + rewrite !(execute_run _ _ _ _ Hcode). cbv zeta.
      cbn [with_address self world calls _contract web3].
      destruct (transact_execute _ _ _ _) as [[tx_hash|e] w]; [|done].
      by destruct (_prepare_receipt _ _ _) as [[receipt|e] w'].
    + by rewrite !(execute_script_raises _ _ _ _ Hcode).
Qed.

Example Invocation__init___keeps_other_attributes :
  let before : gmap string (@pyvalue bytes_api) := {[ "note"%string := PyInt 7 ]} in
  snd (Invocation__init__ before (@PyAddress bytes_api zero_address)
         (@PyCalldata bytes_api [x01]))
    !! "note"%string = Some (PyInt 7)
  /\ Invocation__init__ before (PyStr "0x00") (@PyCalldata bytes_api [x01])
     = (Raised AssertionError, before).
Proof. split; reflexivity. Qed.
